(** * fastapi-sqlalchemy-sqlite: the five [/things] handlers of [main.py]

    A shallow embedding of [src/container/src/main.py].  The module has no
    logic of its own besides the request handlers: every handler opens a
    SQLAlchemy session on the SQLite file, calls a few session methods and
    returns.  The handlers are transcribed statement by statement; the
    session methods they call ([get], [add], [delete], [commit],
    [execute(select(Thing))]) and the table they act on are given the
    semantics SQLAlchemy and SQLite document for them. *)

From Stdlib Require Import ZArith List String Ascii Bool Lia.
From Stdlib Require Import DecimalString DecimalPos DecimalZ.
Import ListNotations.

Local Open Scope string_scope.
Local Open Scope list_scope.
Local Open Scope Z_scope.

(** ** Exceptions and results *)

(** The exceptions a handler can leave with.  [AttributeError] is Python's
    own (attribute access on [None]); the next five are SQLAlchemy's;
    [ValidationError] is pydantic's. *)
Inductive exn : Type :=
| AttributeError
| UnmappedInstanceError
| InvalidRequestError
| IntegrityError
| OperationalError
| StaleDataError
| ValidationError.

Inductive Result (A : Type) : Type :=
| Returned (a : A)
| Raised (e : exn).

Arguments Returned {A} a.
Arguments Raised {A} e.

(** ** The two models of [main.py] *)

(** [class Thing(Base)]: the mapped object.  Both attributes are [None] on
    an object until they are set; [id] is filled in by the store. *)
Module Thing.
Record t : Type := mk { id : option Z; text : option string }.
End Thing.

(** [class ThingModel(BaseModel)]: [id: Optional[int]], [text: str].
    [new] is the constructor call [ThingModel(id=..., text=...)], which
    validates its arguments: [text] has to be a string. *)
Module ThingModel.
Record t : Type := mk { id : option Z; text : string }.

Definition new (id : option Z) (text : option string) : Result t :=
  match text with
  | Some s => Returned (mk id s)
  | None => Raised ValidationError
  end.
End ThingModel.

(** ** The table [thing] *)

(** A stored row of [thing(id INTEGER PRIMARY KEY, text VARCHAR NOT NULL)].
    The text column is kept nullable in the type, so that the NOT NULL
    constraint is something the store checks rather than something the
    model assumes. *)
Record Row : Type := mkRow { rowid : Z; text_col : option string }.

Definition Table : Type := list Row.

(** The database file: [None] when it holds no table [thing]. *)
Definition Database : Type := option Table.

Definition MAX_ROWID : Z := 9223372036854775807.

Definition rowids (tbl : Table) : list Z := map rowid tbl.

Definition has_rowid (k : Z) (tbl : Table) : bool :=
  existsb (Z.eqb k) (rowids tbl).

Fixpoint largest_rowid (tbl : Table) : option Z :=
  match tbl with
  | [] => None
  | r :: rest =>
      match largest_rowid rest with
      | None => Some (rowid r)
      | Some v => Some (Z.max (rowid r) v)
      end
  end.

(** Rows are kept in the order of the table's B-tree, by rowid. *)
Fixpoint insert_row (r : Row) (tbl : Table) : Table :=
  match tbl with
  | [] => [r]
  | x :: rest =>
      if rowid r <? rowid x then r :: tbl else x :: insert_row r rest
  end.

Definition update_text (k : Z) (v : option string) (tbl : Table) : Table :=
  map (fun r => if rowid r =? k then mkRow (rowid r) v else r) tbl.

Definition delete_row (k : Z) (tbl : Table) : Table :=
  filter (fun r => negb (rowid r =? k)) tbl.

Definition select_by_rowid (k : Z) (tbl : Table) : option Row :=
  find (fun r => rowid r =? k) tbl.

Definition load (r : Row) : Thing.t := Thing.mk (Some (rowid r)) (text_col r).

(** [Base.metadata.drop_all] and [Base.metadata.create_all]: the metadata
    holds the one table; it is dropped when it exists and created when it
    does not. *)
Definition drop_all (db : Database) : Database :=
  match db with
  | Some _ => None
  | None => None
  end.

Definition create_all (db : Database) : Database :=
  match db with
  | Some tbl => Some tbl
  | None => Some []
  end.

(** [create_db_and_tables], lines 26-31. *)
Definition create_db_and_tables (db : Database) : Database :=
  create_all (drop_all db).

(** [on_startup], lines 46-48. *)
Definition on_startup (db : Database) : Database :=
  create_db_and_tables db.

(** The decimal text of an integer, as a client writes it into the path
    [/things/{id}]. *)
Definition decimal (z : Z) : string := NilZero.string_of_int (Z.to_int z).

(** One reading of a path segment as a key: plain decimal literals, and
    nothing else.  SQLite reads more texts as integers than this (blanks
    around the digits, a plus sign, a zero fraction, an exponent); on a
    path written as a plain decimal literal, and on one that is no number
    at all, the two readings are the same. *)
Definition decimal_affinity (s : string) : option Z :=
  option_map Z.of_int (NilZero.int_of_string s).

(** One draw of a free rowid: the least positive integer that is the key
    of no row.  Among the first [length used + 1] positive integers one is
    always free. *)
Definition free_rowid (used : list Z) : option Z :=
  find (fun k => negb (existsb (Z.eqb k) used))
       (map Z.of_nat (seq 1 (S (List.length used)))).

(** A small table, two request bodies, and a table whose largest rowid is
    the last one. *)
Definition sample : Table := [mkRow 1 (Some "a"); mkRow 2 (Some "b")].

Definition abc : ThingModel.t := ThingModel.mk None "abc".

Definition xyz : ThingModel.t := ThingModel.mk (Some 1) "xyz".

Definition full : Table := [mkRow 4 (Some "d"); mkRow MAX_ROWID (Some "z")].

Section Store.

(** What SQLite leaves open to the embedding.

    [numeric_affinity s] is the integer that the comparison
    [thing.id = ?] sees when the parameter is bound to the text [s]: the
    handlers declare [id: str], so the key reaches SQLite as text and is
    converted there; [None] when the text is not an integer value, in
    which case no row compares equal.

    [random_rowid used] is the candidate the store draws when the largest
    rowid is [MAX_ROWID] and it has to look for a free one at random;
    [None] when it gives up. *)
Variable numeric_affinity : string -> option Z.
Variable random_rowid : list Z -> option Z.

(** The rowid of an insert that does not name one: 1 in an empty table,
    one more than the largest otherwise, a random free one when the
    largest is the last representable. *)
Definition new_rowid (tbl : Table) : option Z :=
  match largest_rowid tbl with
  | None => Some 1
  | Some v =>
      if MAX_ROWID <=? v then
        match random_rowid (rowids tbl) with
        | Some r => if has_rowid r tbl then None else Some r
        | None => None
        end
      else Some (v + 1)
  end.

(** ** The session: a unit of work over the database *)

(** What a session holds until it is flushed: objects added, attributes
    set on loaded objects, objects marked for deletion. *)
Inductive Pending : Type :=
| New (obj : Thing.t)
| Dirty (key : Z) (text : option string)
| Deleted (key : Z).

Record Session : Type :=
  mkSession { database : Database; pending : list Pending }.

Definition M (A : Type) : Type := Session -> Result A * Session.

Definition ret {A} (a : A) : M A := fun s => (Returned a, s).

Definition raise {A} (e : exn) : M A := fun s => (Raised e, s).

Definition bind {A B} (c : M A) (k : A -> M B) : M B :=
  fun s =>
    match c s with
    | (Returned a, s') => k a s'
    | (Raised e, s') => (Raised e, s')
    end.

Definition lift {A} (r : Result A) : M A := fun s => (r, s).

Notation "x <- c ;; k" := (bind c (fun x => k))
  (at level 61, c at next level, right associativity).
Notation "c ;; k" := (bind c (fun _ => k))
  (at level 61, right associativity).

(** INSERT, UPDATE and DELETE as the flush emits them.  An INSERT of an
    object without [id] leaves the key to the store; an UPDATE that meets
    no row is reported as stale, a DELETE that meets none is not. *)
Definition flush_one (p : Pending) (tbl : Table) : Result Table :=
  match p with
  | New obj =>
      match Thing.id obj with
      | None =>
          match new_rowid tbl with
          | None => Raised OperationalError
          | Some k =>
              match Thing.text obj with
              | None => Raised IntegrityError
              | Some v => Returned (insert_row (mkRow k (Some v)) tbl)
              end
          end
      | Some k =>
          match Thing.text obj with
          | None => Raised IntegrityError
          | Some v =>
              if has_rowid k tbl then Raised IntegrityError
              else Returned (insert_row (mkRow k (Some v)) tbl)
          end
      end
  | Dirty k v =>
      match v with
      | None => Raised IntegrityError
      | Some _ =>
          if has_rowid k tbl then Returned (update_text k v tbl)
          else Raised StaleDataError
      end
  | Deleted k => Returned (delete_row k tbl)
  end.

Fixpoint flush (ps : list Pending) (tbl : Table) : Result Table :=
  match ps with
  | [] => Returned tbl
  | p :: rest =>
      match flush_one p tbl with
      | Returned tbl' => flush rest tbl'
      | Raised e => Raised e
      end
  end.

(** [session.execute(select(Thing))] followed by [.scalars()]. *)
Definition session_execute_select : M (list Thing.t) :=
  fun s =>
    match database s with
    | Some tbl => (Returned (map load tbl), s)
    | None => (Raised OperationalError, s)
    end.

(** [session.get(Thing, id)]: the object with that primary key, or
    [None]. *)
Definition session_get (ident : string) : M (option Thing.t) :=
  fun s =>
    match database s with
    | Some tbl =>
        match numeric_affinity ident with
        | Some k => (Returned (option_map load (select_by_rowid k tbl)), s)
        | None => (Returned None, s)
        end
    | None => (Raised OperationalError, s)
    end.

Definition register (p : Pending) : M unit :=
  fun s => (Returned tt, mkSession (database s) (pending s ++ [p])).

(** [session.add(obj)]. *)
Definition session_add (obj : Thing.t) : M unit := register (New obj).

(** [session.delete(obj)]: [obj] is whatever the variable holds, a loaded
    object, one that was never stored, or [None]. *)
Definition session_delete (obj : option Thing.t) : M unit :=
  match obj with
  | Some (Thing.mk (Some k) _) => register (Deleted k)
  | Some (Thing.mk None _) => raise InvalidRequestError
  | None => raise UnmappedInstanceError
  end.

(** [obj.text = value] on whatever the variable holds.  On a loaded object
    the session records the change; on [None] the assignment raises. *)
Definition setattr_text (obj : option Thing.t) (value : string) : M unit :=
  match obj with
  | Some (Thing.mk (Some k) _) => register (Dirty k (Some value))
  | Some (Thing.mk None _) => ret tt
  | None => raise AttributeError
  end.

(** [session.commit()]: flush what is pending and make it durable; when the
    flush raises, the transaction is rolled back and nothing is stored. *)
Definition session_commit : M unit :=
  fun s =>
    match database s with
    | Some tbl =>
        match flush (pending s) tbl with
        | Returned tbl' => (Returned tt, mkSession (Some tbl') [])
        | Raised e => (Raised e, mkSession (Some tbl) [])
        end
    | None =>
        match pending s with
        | [] => (Returned tt, s)
        | _ :: _ => (Raised OperationalError, mkSession None [])
        end
    end.

(** [Depends(get_async_session)]: the handler runs in a session of its own,
    opened on the database and closed when the handler is left; what was
    not committed by then is dropped. *)
Definition get_async_session {A} (handler : M A) (db : Database)
  : Result A * Database :=
  let (r, s) := handler (mkSession db []) in (r, database s).

(** ** The handlers *)

(** The list comprehension of [get_things]: it stops at the first element
    whose construction raises. *)

Fixpoint comprehension {A B} (f : A -> Result B) (l : list A)
  : Result (list B) :=
  match l with
  | [] => Returned []
  | x :: rest =>
      match f x with
      | Returned y =>
          match comprehension f rest with
          | Returned ys => Returned (y :: ys)
          | Raised e => Raised e
          end
      | Raised e => Raised e
      end
  end.

(** [get_things], lines 50-53. *)
Definition get_things : M (list ThingModel.t) :=
  things <- session_execute_select ;;
  lift (comprehension
          (fun thing => ThingModel.new (Thing.id thing) (Thing.text thing))
          things).

(** [get_thing], lines 55-59.  A handler that falls off its end returns
    [None]. *)
Definition get_thing (id : string) : M (option ThingModel.t) :=
  thing <- session_get id ;;
  match thing with
  | Some thing =>
      m <- lift (ThingModel.new (Thing.id thing) (Thing.text thing)) ;;
      ret (Some m)
  | None => ret None
  end.

(** [post_thing], lines 61-64.  The object is built from the text of the
    body alone. *)
Definition post_thing (thing : ThingModel.t) : M unit :=
  session_add (Thing.mk None (Some (ThingModel.text thing))) ;;
  session_commit.

(** [delete_thing], lines 66-70. *)
Definition delete_thing (id : string) : M unit :=
  thing <- session_get id ;;
  session_delete thing ;;
  session_commit.

(** [put_thing], lines 72-76. *)
Definition put_thing (id : string) (new_thing : ThingModel.t) : M unit :=
  thing <- session_get id ;;
  setattr_text thing (ThingModel.text new_thing) ;;
  session_commit.

(** ** Requests against a running server *)

Inductive Request : Type :=
| GET_things
| GET_thing (id : string)
| POST_things (body : ThingModel.t)
| DELETE_thing (id : string)
| PUT_thing (id : string) (body : ThingModel.t).

(** The database a request leaves behind, whatever it answers. *)
Definition serve (req : Request) (db : Database) : Database :=
  match req with
  | GET_things => snd (get_async_session get_things db)
  | GET_thing id => snd (get_async_session (get_thing id) db)
  | POST_things body => snd (get_async_session (post_thing body) db)
  | DELETE_thing id => snd (get_async_session (delete_thing id) db)
  | PUT_thing id body => snd (get_async_session (put_thing id body) db)
  end.

Definition serve_all (reqs : list Request) (db : Database) : Database :=
  fold_left (fun d req => serve req d) reqs db.

(** A run of POSTs that stops at the first one that fails. *)
Fixpoint post_all (bodies : list ThingModel.t) (db : Database)
  : Result unit * Database :=
  match bodies with
  | [] => (Returned tt, db)
  | body :: rest =>
      match get_async_session (post_thing body) db with
      | (Returned _, db') => post_all rest db'
      | (Raised e, db') => (Raised e, db')
      end
  end.

(** ** Vocabulary of the statements *)

(** The row [r] is one that the path segment [ident] selects. *)
Definition matches (ident : string) (r : Row) : Prop :=
  numeric_affinity ident = Some (rowid r).

Definition absent (ident : string) (tbl : Table) : Prop :=
  forall r, In r tbl -> ~ matches ident r.

Definition present (ident : string) (tbl : Table) : Prop :=
  exists r, In r tbl /\ matches ident r.

Definition text_not_null (tbl : Table) : Prop :=
  forall r, In r tbl -> text_col r <> None.

Definition db_text_not_null (db : Database) : Prop :=
  match db with
  | Some tbl => text_not_null tbl
  | None => True
  end.

(** The largest rowid in use, 0 in the empty table. *)
Definition top_rowid (tbl : Table) : Z :=
  match largest_rowid tbl with
  | Some v => v
  | None => 0
  end.

(** A computation keeps the column constraint when the database of the
    session satisfies it after the computation whenever it did before. *)
Definition keeps_not_null {A} (c : M A) : Prop :=
  forall s, db_text_not_null (database s) ->
            db_text_not_null (database (snd (c s))).

(** The table that holds the given keys and texts, and the records
    [get_things] builds from such rows. *)
Definition stored (l : list (Z * string)) : Table :=
  map (fun p => mkRow (fst p) (Some (snd p))) l.

Definition listed (l : list (Z * string)) : list ThingModel.t :=
  map (fun p => ThingModel.mk (Some (fst p)) (snd p)) l.

(** Texts paired with consecutive keys from [first] on. *)
Fixpoint numbered (first : Z) (texts : list string) : list (Z * string) :=
  match texts with
  | [] => []
  | t :: rest => (first, t) :: numbered (first + 1) rest
  end.

(** The database holds the table and no two rows share a key. *)
Definition unique_keys (db : Database) : Prop :=
  match db with
  | Some tbl => NoDup (rowids tbl)
  | None => False
  end.

(** The exception a request is answered with, if any. *)
Definition status {A} (out : Result A * Database) : option exn :=
  match fst out with
  | Returned _ => None
  | Raised e => Some e
  end.

Definition raises (req : Request) (db : Database) : option exn :=
  match req with
  | GET_things => status (get_async_session get_things db)
  | GET_thing id => status (get_async_session (get_thing id) db)
  | POST_things body => status (get_async_session (post_thing body) db)
  | DELETE_thing id => status (get_async_session (delete_thing id) db)
  | PUT_thing id body => status (get_async_session (put_thing id body) db)
  end.

(** A computation that never writes to the database of its session; one
    that leaves the database as it found it whenever it raises; and one
    whose only writes are those of a flush that went through. *)
Definition stays {A} (c : M A) : Prop :=
  forall s, database (snd (c s)) = database s.

Definition atomic {A} (c : M A) : Prop :=
  forall s e s', c s = (Raised e, s') -> database s' = database s.

Definition flushes {A} (c : M A) : Prop :=
  forall s,
    database (snd (c s)) = database s \/
    exists tbl ps tbl',
      database s = Some tbl /\ flush ps tbl = Returned tbl' /\
      database (snd (c s)) = Some tbl'.

(** A fresh session on a database that holds the table. *)
Definition opened (tbl : Table) : Session := mkSession (Some tbl) [].

(** ** Facts about the table *)

Lemma has_rowid_true k tbl : has_rowid k tbl = true <-> In k (rowids tbl).
Proof.
  unfold has_rowid. rewrite existsb_exists. split.
  - intros [x [Hin Heq]]. apply Z.eqb_eq in Heq. now subst.
  - intros Hin. exists k. split; [assumption | apply Z.eqb_refl].
Qed.

Lemma has_rowid_false k tbl : has_rowid k tbl = false <-> ~ In k (rowids tbl).
Proof.
  rewrite <- has_rowid_true. destruct (has_rowid k tbl); split; intros; congruence.
Qed.

Lemma select_by_rowid_none k tbl :
  ~ In k (rowids tbl) -> select_by_rowid k tbl = None.
Proof.
  induction tbl as [|x rest IH]; simpl; intros Hnot; [reflexivity|].
  destruct (Z.eqb_spec (rowid x) k) as [Heq|Hne].
  - exfalso. apply Hnot. now left.
  - apply IH. intros Hin. apply Hnot. now right.
Qed.

Lemma select_by_rowid_some k tbl :
  In k (rowids tbl) ->
  exists r, select_by_rowid k tbl = Some r /\ rowid r = k /\ In r tbl.
Proof.
  induction tbl as [|x rest IH]; simpl; intros Hin; [contradiction|].
  destruct (Z.eqb_spec (rowid x) k) as [Heq|Hne].
  - exists x. auto.
  - destruct Hin as [Heq|Hin]; [contradiction|].
    destruct (IH Hin) as [r [Hsel [Hk Hr]]]. exists r. auto.
Qed.

Lemma rowids_delete_row k tbl : ~ In k (rowids (delete_row k tbl)).
Proof.
  unfold rowids, delete_row. rewrite in_map_iff.
  intros [r [Hk Hin]]. apply filter_In in Hin. destruct Hin as [_ Hneq].
  rewrite <- Hk, Z.eqb_refl in Hneq. discriminate.
Qed.

Lemma rowids_update_text k v tbl : rowids (update_text k v tbl) = rowids tbl.
Proof.
  unfold rowids, update_text. rewrite map_map. apply map_ext.
  intros r. now destruct (rowid r =? k).
Qed.

Lemma select_update_text k v tbl :
  In k (rowids tbl) ->
  select_by_rowid k (update_text k v tbl) = Some (mkRow k v).
Proof.
  induction tbl as [|x rest IH]; simpl; intros Hin; [contradiction|].
  destruct (Z.eqb_spec (rowid x) k) as [Heq|Hne]; simpl.
  - rewrite Heq, Z.eqb_refl. reflexivity.
  - destruct (Z.eqb_spec (rowid x) k) as [|_]; [contradiction|].
    destruct Hin as [Heq|Hin]; [contradiction|]. now apply IH.
Qed.

Lemma insert_row_In r x tbl : In x (insert_row r tbl) <-> x = r \/ In x tbl.
Proof.
  induction tbl as [|y rest IH]; simpl.
  - intuition.
  - destruct (rowid r <? rowid y); simpl; rewrite ?IH; intuition.
Qed.

Lemma insert_row_length r tbl :
  List.length (insert_row r tbl) = S (List.length tbl).
Proof.
  induction tbl as [|y rest IH]; simpl; [reflexivity|].
  destruct (rowid r <? rowid y); simpl; [reflexivity|]. now rewrite IH.
Qed.

Lemma select_insert_row r tbl :
  ~ In (rowid r) (rowids tbl) ->
  select_by_rowid (rowid r) (insert_row r tbl) = Some r.
Proof.
  induction tbl as [|y rest IH]; simpl; intros Hnot.
  - now rewrite Z.eqb_refl.
  - destruct (rowid r <? rowid y); simpl.
    + now rewrite Z.eqb_refl.
    + destruct (Z.eqb_spec (rowid y) (rowid r)) as [Heq|Hne].
      * exfalso. apply Hnot. now left.
      * apply IH. intros Hin. apply Hnot. now right.
Qed.

Lemma largest_rowid_bound tbl v :
  largest_rowid tbl = Some v -> forall k, In k (rowids tbl) -> k <= v.
Proof.
  revert v. induction tbl as [|x rest IH]; simpl; intros v Hv k Hin;
    [contradiction|].
  destruct (largest_rowid rest) as [w|] eqn:Hw.
  - injection Hv as <-. destruct Hin as [<-|Hin]; [lia|].
    specialize (IH w eq_refl k Hin). lia.
  - injection Hv as <-. destruct Hin as [<-|Hin]; [lia|].
    destruct rest; [contradiction|]. simpl in Hw.
    destruct (largest_rowid rest); discriminate.
Qed.

Lemma new_rowid_fresh tbl k : new_rowid tbl = Some k -> ~ In k (rowids tbl).
Proof.
  unfold new_rowid. destruct (largest_rowid tbl) as [v|] eqn:Hv.
  - destruct (MAX_ROWID <=? v).
    + destruct (random_rowid (rowids tbl)) as [r|]; [|discriminate].
      destruct (has_rowid r tbl) eqn:Hr; [discriminate|].
      intros [= <-]. now apply has_rowid_false.
    + intros [= <-] Hin. pose proof (largest_rowid_bound tbl v Hv _ Hin). lia.
  - intros _. destruct tbl; [now simpl|]. simpl in Hv.
    destruct (largest_rowid tbl); discriminate.
Qed.

(** ** Facts about the session *)

Lemma absent_rowids ident k tbl :
  numeric_affinity ident = Some k -> absent ident tbl -> ~ In k (rowids tbl).
Proof.
  intros Hk Habs Hin. apply in_map_iff in Hin. destruct Hin as [r [Hr Hin]].
  apply (Habs r Hin). unfold matches. now rewrite Hr.
Qed.

Lemma present_rowids ident tbl :
  present ident tbl ->
  exists k, numeric_affinity ident = Some k /\ In k (rowids tbl).
Proof.
  intros [r [Hin Hm]]. exists (rowid r). split; [exact Hm|].
  apply in_map_iff. now exists r.
Qed.

Lemma session_get_absent ident tbl :
  absent ident tbl ->
  session_get ident (opened tbl) = (Returned None, opened tbl).
Proof.
  intros Habs. unfold session_get, opened; simpl.
  destruct (numeric_affinity ident) as [k|] eqn:Hk; [|reflexivity].
  now rewrite (select_by_rowid_none k tbl (absent_rowids _ _ _ Hk Habs)).
Qed.

Lemma session_get_present ident k tbl :
  numeric_affinity ident = Some k -> In k (rowids tbl) ->
  exists r, In r tbl /\ rowid r = k /\
    session_get ident (opened tbl) = (Returned (Some (load r)), opened tbl).
Proof.
  intros Hk Hin. destruct (select_by_rowid_some k tbl Hin) as [r [Hsel [Hr Hi]]].
  exists r. repeat split; try assumption.
  unfold session_get, opened; simpl. now rewrite Hk, Hsel.
Qed.

(** ** What each handler does in a fresh session *)

Lemma get_thing_run ident k tbl :
  numeric_affinity ident = Some k ->
  get_thing ident (opened tbl) =
  match select_by_rowid k tbl with
  | None => (Returned None, opened tbl)
  | Some r =>
      match text_col r with
      | Some v => (Returned (Some (ThingModel.mk (Some (rowid r)) v)), opened tbl)
      | None => (Raised ValidationError, opened tbl)
      end
  end.
Proof.
  intros Hk. unfold get_thing, bind, session_get, opened; simpl. rewrite Hk.
  destruct (select_by_rowid k tbl) as [r|]; simpl; [|reflexivity].
  unfold lift, ThingModel.new. now destruct (text_col r).
Qed.

Lemma put_thing_present ident k body tbl :
  numeric_affinity ident = Some k -> In k (rowids tbl) ->
  put_thing ident body (opened tbl) =
  (Returned tt, opened (update_text k (Some (ThingModel.text body)) tbl)).
Proof.
  intros Hk Hin. destruct (session_get_present ident k tbl Hk Hin) as [r [_ [Hr Hget]]].
  unfold put_thing, bind. rewrite Hget. cbn -[has_rowid]. rewrite Hr.
  now rewrite (proj2 (has_rowid_true k tbl) Hin).
Qed.

Lemma delete_thing_present ident k tbl :
  numeric_affinity ident = Some k -> In k (rowids tbl) ->
  delete_thing ident (opened tbl) = (Returned tt, opened (delete_row k tbl)).
Proof.
  intros Hk Hin. destruct (session_get_present ident k tbl Hk Hin) as [r [_ [Hr Hget]]].
  unfold delete_thing, bind. rewrite Hget. simpl. now rewrite Hr.
Qed.

Lemma post_thing_run body tbl :
  post_thing body (opened tbl) =
  match new_rowid tbl with
  | Some k =>
      (Returned tt,
       opened (insert_row (mkRow k (Some (ThingModel.text body))) tbl))
  | None => (Raised OperationalError, opened tbl)
  end.
Proof.
  unfold post_thing, bind, session_add, register, session_commit, opened; simpl.
  now destruct (new_rowid tbl).
Qed.

Lemma in_session {A} (handler : M A) tbl r tbl' :
  handler (opened tbl) = (r, opened tbl') ->
  get_async_session handler (Some tbl) = (r, Some tbl').
Proof.
  unfold get_async_session, opened. now intros ->.
Qed.

(** ** The rowid of an insert *)

Lemma new_rowid_next tbl :
  top_rowid tbl < MAX_ROWID -> new_rowid tbl = Some (top_rowid tbl + 1).
Proof.
  unfold top_rowid, new_rowid. destruct (largest_rowid tbl) as [v|]; intros Hlt.
  - destruct (Z.leb_spec MAX_ROWID v); [lia | reflexivity].
  - reflexivity.
Qed.

Lemma new_rowid_drawn tbl r :
  MAX_ROWID <= top_rowid tbl ->
  random_rowid (rowids tbl) = Some r -> ~ In r (rowids tbl) ->
  new_rowid tbl = Some r.
Proof.
  unfold top_rowid, new_rowid.
  destruct (largest_rowid tbl) as [v|]; intros Hmax Hdraw Hfree.
  - destruct (Z.leb_spec MAX_ROWID v); [|lia].
    rewrite Hdraw. now rewrite (proj2 (has_rowid_false r tbl) Hfree).
  - unfold MAX_ROWID in Hmax. lia.
Qed.

Lemma largest_rowid_insert_row r tbl :
  largest_rowid (insert_row r tbl) =
  match largest_rowid tbl with
  | Some v => Some (Z.max (rowid r) v)
  | None => Some (rowid r)
  end.
Proof.
  induction tbl as [|x rest IH]; simpl; [reflexivity|].
  destruct (rowid r <? rowid x); simpl.
  - reflexivity.
  - rewrite IH. destruct (largest_rowid rest) as [v|]; f_equal; lia.
Qed.

Lemma top_rowid_after_insert tbl v :
  top_rowid (insert_row (mkRow (top_rowid tbl + 1) v) tbl) = top_rowid tbl + 1.
Proof.
  unfold top_rowid at 1. rewrite largest_rowid_insert_row. simpl.
  unfold top_rowid. destruct (largest_rowid tbl); lia.
Qed.

(** ** The NOT NULL column *)

Lemma text_not_null_insert_row k v tbl :
  text_not_null tbl -> text_not_null (insert_row (mkRow k (Some v)) tbl).
Proof.
  intros Hinv r Hin. apply insert_row_In in Hin. destruct Hin as [->|Hin].
  - discriminate.
  - now apply Hinv.
Qed.

Lemma text_not_null_update_text k v tbl :
  text_not_null tbl -> text_not_null (update_text k (Some v) tbl).
Proof.
  intros Hinv r Hin. unfold update_text in Hin. apply in_map_iff in Hin.
  destruct Hin as [x [Hx Hin]]. destruct (rowid x =? k); subst r.
  - discriminate.
  - now apply Hinv.
Qed.

Lemma text_not_null_delete_row k tbl :
  text_not_null tbl -> text_not_null (delete_row k tbl).
Proof.
  intros Hinv r Hin. unfold delete_row in Hin. apply filter_In in Hin.
  now apply Hinv.
Qed.

Lemma flush_one_text_not_null p tbl tbl' :
  text_not_null tbl -> flush_one p tbl = Returned tbl' -> text_not_null tbl'.
Proof.
  intros Hinv. destruct p as [[i t]|k v|k]; simpl.
  - destruct i as [k|].
    + destruct t as [v|]; [|discriminate].
      destruct (has_rowid k tbl); [discriminate|].
      intros [= <-]. now apply text_not_null_insert_row.
    + destruct (new_rowid tbl) as [k|]; [|discriminate].
      destruct t as [v|]; [|discriminate].
      intros [= <-]. now apply text_not_null_insert_row.
  - destruct v as [v|]; [|discriminate].
    destruct (has_rowid k tbl); [|discriminate].
    intros [= <-]. now apply text_not_null_update_text.
  - intros [= <-]. now apply text_not_null_delete_row.
Qed.

Lemma flush_text_not_null ps tbl tbl' :
  text_not_null tbl -> flush ps tbl = Returned tbl' -> text_not_null tbl'.
Proof.
  revert tbl. induction ps as [|p rest IH]; simpl; intros tbl Hinv.
  - now intros [= <-].
  - destruct (flush_one p tbl) as [mid|e] eqn:Hone; [|discriminate].
    apply IH. exact (flush_one_text_not_null p tbl mid Hinv Hone).
Qed.

Lemma keeps_ret {A} (a : A) : keeps_not_null (ret a).
Proof. intros s Hs. exact Hs. Qed.

Lemma keeps_raise {A} (e : exn) : keeps_not_null (@raise A e).
Proof. intros s Hs. exact Hs. Qed.

Lemma keeps_lift {A} (r : Result A) : keeps_not_null (lift r).
Proof. intros s Hs. exact Hs. Qed.

Lemma keeps_bind {A B} (c : M A) (k : A -> M B) :
  keeps_not_null c -> (forall a, keeps_not_null (k a)) ->
  keeps_not_null (bind c k).
Proof.
  intros Hc Hk s Hs. unfold bind. specialize (Hc s Hs).
  destruct (c s) as [[a|e] s']; simpl in *.
  - now apply Hk.
  - exact Hc.
Qed.

Lemma keeps_register p : keeps_not_null (register p).
Proof. intros s Hs. exact Hs. Qed.

Lemma keeps_session_execute_select : keeps_not_null session_execute_select.
Proof.
  intros s Hs. unfold session_execute_select.
  destruct (database s) eqn:Hdb; simpl; now rewrite Hdb.
Qed.

Lemma keeps_session_get ident : keeps_not_null (session_get ident).
Proof.
  intros s Hs. unfold session_get.
  destruct (database s) eqn:Hdb; [destruct (numeric_affinity ident)|];
    simpl; now rewrite Hdb.
Qed.

Lemma keeps_session_delete obj : keeps_not_null (session_delete obj).
Proof.
  destruct obj as [[[k|] t]|]; simpl;
    [apply keeps_register | apply keeps_raise | apply keeps_raise].
Qed.

Lemma keeps_setattr_text obj v : keeps_not_null (setattr_text obj v).
Proof.
  destruct obj as [[[k|] t]|]; simpl;
    [apply keeps_register | apply keeps_ret | apply keeps_raise].
Qed.

Lemma keeps_session_commit : keeps_not_null session_commit.
Proof.
  intros s Hs. unfold session_commit.
  destruct (database s) as [tbl|] eqn:Hdb; simpl in *.
  - destruct (flush (pending s) tbl) as [tbl'|e] eqn:Hf; simpl.
    + exact (flush_text_not_null _ _ _ Hs Hf).
    + exact Hs.
  - destruct (pending s); simpl; [now rewrite Hdb | exact I].
Qed.

Lemma keeps_in_session {A} (handler : M A) db :
  keeps_not_null handler -> db_text_not_null db ->
  db_text_not_null (snd (get_async_session handler db)).
Proof.
  intros Hh Hdb. unfold get_async_session.
  specialize (Hh (mkSession db []) Hdb).
  now destruct (handler (mkSession db [])).
Qed.

Lemma keeps_get_things : keeps_not_null get_things.
Proof.
  apply keeps_bind; [apply keeps_session_execute_select|].
  intros things. apply keeps_lift.
Qed.

Lemma keeps_get_thing ident : keeps_not_null (get_thing ident).
Proof.
  apply keeps_bind; [apply keeps_session_get|].
  intros [thing|]; [|apply keeps_ret].
  apply keeps_bind; [apply keeps_lift|]. intros m. apply keeps_ret.
Qed.

Lemma keeps_post_thing body : keeps_not_null (post_thing body).
Proof.
  apply keeps_bind; [apply keeps_register|].
  intros _. apply keeps_session_commit.
Qed.

Lemma keeps_delete_thing ident : keeps_not_null (delete_thing ident).
Proof.
  apply keeps_bind; [apply keeps_session_get|]. intros thing.
  apply keeps_bind; [apply keeps_session_delete|].
  intros _. apply keeps_session_commit.
Qed.

Lemma keeps_put_thing ident body : keeps_not_null (put_thing ident body).
Proof.
  apply keeps_bind; [apply keeps_session_get|]. intros thing.
  apply keeps_bind; [apply keeps_setattr_text|].
  intros _. apply keeps_session_commit.
Qed.

Lemma serve_text_not_null req db :
  db_text_not_null db -> db_text_not_null (serve req db).
Proof.
  intros Hdb. destruct req; simpl; apply keeps_in_session;
    auto using keeps_get_things, keeps_get_thing, keeps_post_thing,
               keeps_delete_thing, keeps_put_thing.
Qed.

Lemma serve_all_text_not_null reqs db :
  db_text_not_null db -> db_text_not_null (serve_all reqs db).
Proof.
  revert db. unfold serve_all.
  induction reqs as [|req rest IH]; simpl; intros db Hdb; [exact Hdb|].
  apply IH. now apply serve_text_not_null.
Qed.

(** ** Listing and runs of POSTs *)

Lemma comprehension_loaded tbl :
  text_not_null tbl ->
  exists out,
    comprehension
      (fun thing => ThingModel.new (Thing.id thing) (Thing.text thing))
      (map load tbl) = Returned out /\
    List.length out = List.length tbl.
Proof.
  induction tbl as [|r rest IH]; intros Hinv.
  - exists []. now split.
  - destruct IH as [out [Hout Hlen]].
    { intros x Hx. apply Hinv. now right. }
    simpl. destruct (text_col r) as [v|] eqn:Hv.
    + rewrite Hout. simpl. eexists. split; [reflexivity|]. simpl. now rewrite Hlen.
    + exfalso. apply (Hinv r); [now left | exact Hv].
Qed.

Lemma get_things_run tbl :
  text_not_null tbl ->
  exists out,
    get_async_session get_things (Some tbl) = (Returned out, Some tbl) /\
    List.length out = List.length tbl.
Proof.
  intros Hinv. destruct (comprehension_loaded tbl Hinv) as [out [Hout Hlen]].
  exists out. split; [|exact Hlen].
  unfold get_async_session, get_things, bind, session_execute_select, lift.
  simpl. now rewrite Hout.
Qed.

Lemma post_in_session body tbl :
  get_async_session (post_thing body) (Some tbl) =
  match new_rowid tbl with
  | Some k =>
      (Returned tt,
       Some (insert_row (mkRow k (Some (ThingModel.text body))) tbl))
  | None => (Raised OperationalError, Some tbl)
  end.
Proof.
  pose proof (post_thing_run body tbl) as Hrun.
  destruct (new_rowid tbl); now apply in_session.
Qed.

Lemma post_all_returned bodies tbl db' :
  text_not_null tbl ->
  post_all bodies (Some tbl) = (Returned tt, db') ->
  exists tbl', db' = Some tbl' /\ text_not_null tbl' /\
    List.length tbl' = (List.length tbl + List.length bodies)%nat.
Proof.
  revert tbl. induction bodies as [|body rest IH]; simpl; intros tbl Hinv.
  - intros [= <-]. exists tbl. repeat split; [exact Hinv | lia].
  - rewrite post_in_session. destruct (new_rowid tbl) as [k|]; [|discriminate].
    intros Hrest. apply IH in Hrest; [|now apply text_not_null_insert_row].
    destruct Hrest as [tbl' [-> [Hinv' Hlen]]]. exists tbl'.
    repeat split; [exact Hinv'|]. rewrite Hlen, insert_row_length. lia.
Qed.

Lemma post_all_succeeds bodies tbl :
  top_rowid tbl + Z.of_nat (List.length bodies) <= MAX_ROWID ->
  exists tbl', post_all bodies (Some tbl) = (Returned tt, Some tbl').
Proof.
  revert tbl. induction bodies as [|body rest IH]; intros tbl Hroom.
  - exists tbl. reflexivity.
  - cbn [post_all]. rewrite post_in_session.
    cbn [List.length] in Hroom. rewrite Nat2Z.inj_succ in Hroom.
    rewrite new_rowid_next by lia. apply IH.
    rewrite top_rowid_after_insert. lia.
Qed.

(** ** The claims *)

(** C1.  PUT and DELETE on an id that selects no row do not answer
    not-found: PUT raises on the attribute assignment to [None], DELETE on
    the deletion of [None].  Both leave before [commit] is reached: the
    session is as it was opened, nothing pending and nothing written, and
    the database the request leaves behind is the one it found. *)
Theorem C1_put_delete_absent_id :
  forall (tbl : Table) (ident : string) (body : ThingModel.t),
    absent ident tbl ->
    put_thing ident body (opened tbl) = (Raised AttributeError, opened tbl) /\
    delete_thing ident (opened tbl) = (Raised UnmappedInstanceError, opened tbl) /\
    get_async_session (put_thing ident body) (Some tbl)
      = (Raised AttributeError, Some tbl) /\
    get_async_session (delete_thing ident) (Some tbl)
      = (Raised UnmappedInstanceError, Some tbl).
Proof.
  intros tbl ident body Habs.
  pose proof (session_get_absent ident tbl Habs) as Hget.
  assert (Hput : put_thing ident body (opened tbl)
                 = (Raised AttributeError, opened tbl)).
  { unfold put_thing, bind. now rewrite Hget. }
  assert (Hdel : delete_thing ident (opened tbl)
                 = (Raised UnmappedInstanceError, opened tbl)).
  { unfold delete_thing, bind. now rewrite Hget. }
  repeat split; auto using in_session.
Qed.

(** C2.  Round trip.  When the store assigns the key [k] to the insert of
    a POST with text [t], the POST succeeds, and a GET whose path segment
    is the text of [k] answers the record of id [k] and text [t]. *)
Theorem C2_post_then_get :
  forall (tbl : Table) (body : ThingModel.t) (k : Z) (path : string),
    new_rowid tbl = Some k ->
    numeric_affinity path = Some k ->
    exists tbl',
      get_async_session (post_thing body) (Some tbl)
        = (Returned tt, Some tbl') /\
      get_async_session (get_thing path) (Some tbl')
        = (Returned (Some (ThingModel.mk (Some k) (ThingModel.text body))),
           Some tbl').
Proof.
  intros tbl body k path Hnew Hpath.
  exists (insert_row (mkRow k (Some (ThingModel.text body))) tbl). split.
  - rewrite post_in_session. now rewrite Hnew.
  - apply in_session. rewrite (get_thing_run path k _ Hpath).
    pose proof (select_insert_row (mkRow k (Some (ThingModel.text body))) tbl
                  (new_rowid_fresh tbl k Hnew)) as Hsel.
    simpl in Hsel. now rewrite Hsel.
Qed.

(** C3.  Starting from the empty table, a run of N POSTs that all succeed
    is followed by a GET /things that answers a list of exactly N entries;
    and as long as N does not exceed the largest rowid, all N do
    succeed. *)
Theorem C3_list_counts_posts :
  forall bodies : list ThingModel.t,
    (Z.of_nat (List.length bodies) <= MAX_ROWID ->
     exists tbl', post_all bodies (Some []) = (Returned tt, Some tbl')) /\
    (forall db',
       post_all bodies (Some []) = (Returned tt, db') ->
       exists out,
         get_async_session get_things db' = (Returned out, db') /\
         List.length out = List.length bodies).
Proof.
  intros bodies. split.
  - intros Hroom. apply post_all_succeeds. simpl. exact Hroom.
  - intros db' Hrun.
    destruct (post_all_returned bodies [] db') as [tbl' [-> [Hinv Hlen]]];
      [intros r [] | exact Hrun |].
    destruct (get_things_run tbl' Hinv) as [out [Hout Hn]].
    exists out. split; [exact Hout|]. rewrite Hn, Hlen. reflexivity.
Qed.

(** C4.  PUT on an id that selects a row succeeds, and a GET of the same
    id afterwards answers a record whose text is the text of the PUT
    body. *)
Theorem C4_put_then_get :
  forall (tbl : Table) (ident : string) (body : ThingModel.t),
    present ident tbl ->
    exists tbl' m,
      get_async_session (put_thing ident body) (Some tbl)
        = (Returned tt, Some tbl') /\
      get_async_session (get_thing ident) (Some tbl')
        = (Returned (Some m), Some tbl') /\
      ThingModel.text m = ThingModel.text body.
Proof.
  intros tbl ident body Hpres.
  destruct (present_rowids ident tbl Hpres) as [k [Hk Hin]].
  exists (update_text k (Some (ThingModel.text body)) tbl).
  exists (ThingModel.mk (Some k) (ThingModel.text body)).
  split; [|split; [|reflexivity]].
  - apply in_session. now apply put_thing_present.
  - apply in_session. rewrite (get_thing_run ident k _ Hk).
    now rewrite select_update_text.
Qed.

(** C5.  DELETE on an id that selects a row succeeds, and a GET of the
    same id afterwards answers nothing. *)
Theorem C5_delete_then_get :
  forall (tbl : Table) (ident : string),
    present ident tbl ->
    exists tbl',
      get_async_session (delete_thing ident) (Some tbl)
        = (Returned tt, Some tbl') /\
      get_async_session (get_thing ident) (Some tbl')
        = (Returned None, Some tbl').
Proof.
  intros tbl ident Hpres.
  destruct (present_rowids ident tbl Hpres) as [k [Hk Hin]].
  exists (delete_row k tbl). split.
  - apply in_session. now apply delete_thing_present.
  - apply in_session. rewrite (get_thing_run ident k _ Hk).
    now rewrite (select_by_rowid_none k _ (rowids_delete_row k tbl)).
Qed.

(** C6.  GET of an id that selects no row answers nothing: no record and
    no exception, and the database is untouched.  A path segment that is
    not an integer is such an id in every table: the handler takes it as a
    string, and no row compares equal to it. *)
Theorem C6_get_absent_id :
  forall (tbl : Table) (ident : string),
    (numeric_affinity ident = None -> absent ident tbl) /\
    (absent ident tbl ->
     get_async_session (get_thing ident) (Some tbl) = (Returned None, Some tbl)).
Proof.
  intros tbl ident. split.
  - intros Hnone r _ Hm. unfold matches in Hm. congruence.
  - intros Habs. apply in_session. unfold get_thing, bind.
    now rewrite (session_get_absent ident tbl Habs).
Qed.

(** C7.  The startup hook runs [create_db_and_tables], which drops the
    table and creates it again: whatever the database held before, it
    holds the empty table afterwards, and GET /things answers the empty
    list. *)
Theorem C7_startup_empties_table :
  forall db : Database,
    drop_all db = None /\
    on_startup db = Some [] /\
    get_async_session get_things (on_startup db) = (Returned [], Some []).
Proof.
  intros db. destruct db as [tbl|]; repeat split.
Qed.

(** C8.  No stored row has a null text.  Each of the five operations keeps
    this true of the database it leaves behind, and so it is true after
    every sequence of requests that starts from the empty table, which is
    the table every start of the server leaves. *)
Theorem C8_text_never_null :
  (forall (req : Request) (db : Database),
     db_text_not_null db -> db_text_not_null (serve req db)) /\
  (forall reqs : list Request,
     db_text_not_null (serve_all reqs (Some []))) /\
  (forall (db0 : Database) (reqs : list Request),
     db_text_not_null (serve_all reqs (on_startup db0))).
Proof.
  split; [|split].
  - intros req db. apply serve_text_not_null.
  - intros reqs. apply serve_all_text_not_null. intros r [].
  - intros db0 reqs. apply serve_all_text_not_null.
    destruct db0; intros r [].
Qed.

(** C9.  The id of the row a POST creates is the one the store picks: it
    is the key of no row already in the table, the table grows by exactly
    that row, and the [id] field of the body does not enter: a body with
    any other [id] and the same text has the same outcome.  The POST does
    create the row whenever the store has a key to give: while the largest
    rowid is below the last one the key is the next one, and beyond that
    it is the free rowid the store draws.  Only when the store has no key
    to give does the POST raise, and then it stores nothing. *)
Theorem C9_post_assigns_fresh_id :
  forall (tbl : Table) (body : ThingModel.t),
    (forall other : option Z,
       get_async_session
         (post_thing (ThingModel.mk other (ThingModel.text body))) (Some tbl)
       = get_async_session (post_thing body) (Some tbl)) /\
    ((exists k,
        new_rowid tbl = Some k /\
        ~ In k (rowids tbl) /\
        get_async_session (post_thing body) (Some tbl)
          = (Returned tt,
             Some (insert_row (mkRow k (Some (ThingModel.text body))) tbl)) /\
        (forall r,
           In r (insert_row (mkRow k (Some (ThingModel.text body))) tbl)
           <-> r = mkRow k (Some (ThingModel.text body)) \/ In r tbl))
     \/
     (new_rowid tbl = None /\
      get_async_session (post_thing body) (Some tbl)
        = (Raised OperationalError, Some tbl))) /\
    (top_rowid tbl < MAX_ROWID ->
     ~ In (top_rowid tbl + 1) (rowids tbl) /\
     get_async_session (post_thing body) (Some tbl)
       = (Returned tt,
          Some (insert_row
                  (mkRow (top_rowid tbl + 1) (Some (ThingModel.text body)))
                  tbl))) /\
    (forall r : Z,
       MAX_ROWID <= top_rowid tbl ->
       random_rowid (rowids tbl) = Some r ->
       ~ In r (rowids tbl) ->
       get_async_session (post_thing body) (Some tbl)
         = (Returned tt,
            Some (insert_row (mkRow r (Some (ThingModel.text body))) tbl))) /\
    (new_rowid tbl = None -> MAX_ROWID <= top_rowid tbl).
Proof.
  intros tbl body. split; [|split; [|split; [|split]]].
  - intros other. now rewrite !post_in_session.
  - rewrite post_in_session. destruct (new_rowid tbl) as [k|] eqn:Hnew.
    + left. exists k. repeat split.
      * now apply new_rowid_fresh.
      * now apply insert_row_In.
      * now apply insert_row_In.
    + right. now split.
  - intros Hlt. pose proof (new_rowid_next tbl Hlt) as Hnew. split.
    + exact (new_rowid_fresh tbl _ Hnew).
    + rewrite post_in_session. now rewrite Hnew.
  - intros r Hmax Hdraw Hfree. rewrite post_in_session.
    now rewrite (new_rowid_drawn tbl r Hmax Hdraw Hfree).
  - intros Hnone. destruct (Z.lt_ge_cases (top_rowid tbl) MAX_ROWID) as [Hlt|Hge];
      [|exact Hge].
    rewrite (new_rowid_next tbl Hlt) in Hnone. discriminate.
Qed.

(** C10.  PUT on an id that selects the rows of key [k] rewrites the text
    of those rows and nothing else: the table keeps its rowids in their
    places, a row of another key is left as it is, a row of key [k] keeps
    the key and takes the text of the body, and the [id] field of the body
    plays no part. *)
Theorem C10_put_frame :
  forall (tbl : Table) (ident : string) (k : Z) (body : ThingModel.t),
    numeric_affinity ident = Some k ->
    In k (rowids tbl) ->
    exists tbl',
      get_async_session (put_thing ident body) (Some tbl)
        = (Returned tt, Some tbl') /\
      rowids tbl' = rowids tbl /\
      (forall n r, nth_error tbl n = Some r -> rowid r <> k ->
                   nth_error tbl' n = Some r) /\
      (forall n r, nth_error tbl n = Some r -> rowid r = k ->
                   nth_error tbl' n
                   = Some (mkRow k (Some (ThingModel.text body)))) /\
      (forall other : option Z,
         get_async_session
           (put_thing ident (ThingModel.mk other (ThingModel.text body)))
           (Some tbl)
         = (Returned tt, Some tbl')).
Proof.
  intros tbl ident k body Hk Hin.
  exists (update_text k (Some (ThingModel.text body)) tbl).
  split; [|split; [|split; [|split]]].
  - apply in_session. now apply put_thing_present.
  - apply rowids_update_text.
  - intros n r Hn Hne. unfold update_text. rewrite nth_error_map, Hn. simpl.
    destruct (Z.eqb_spec (rowid r) k); [contradiction | reflexivity].
  - intros n r Hn Heq. unfold update_text. rewrite nth_error_map, Hn. simpl.
    rewrite Heq, Z.eqb_refl. reflexivity.
  - intros other. apply in_session.
    now rewrite (put_thing_present ident k _ tbl Hk Hin).
Qed.

(** ** Computations that do not write *)

Lemma stays_ret {A} (a : A) : stays (ret a).
Proof. intros s. reflexivity. Qed.

Lemma stays_raise {A} (e : exn) : stays (@raise A e).
Proof. intros s. reflexivity. Qed.

Lemma stays_lift {A} (r : Result A) : stays (lift r).
Proof. intros s. reflexivity. Qed.

Lemma stays_register p : stays (register p).
Proof. intros s. reflexivity. Qed.

Lemma stays_bind {A B} (c : M A) (k : A -> M B) :
  stays c -> (forall a, stays (k a)) -> stays (bind c k).
Proof.
  intros Hc Hk s. unfold bind. specialize (Hc s).
  destruct (c s) as [[a|e] s1]; simpl in *.
  - now rewrite Hk.
  - exact Hc.
Qed.

Lemma stays_session_execute_select : stays session_execute_select.
Proof.
  intros s. unfold session_execute_select.
  destruct (database s) eqn:Hdb; simpl; exact Hdb.
Qed.

Lemma stays_session_get ident : stays (session_get ident).
Proof.
  intros s. unfold session_get.
  destruct (database s) eqn:Hdb; [destruct (numeric_affinity ident)|];
    simpl; exact Hdb.
Qed.

Lemma stays_session_delete obj : stays (session_delete obj).
Proof.
  destruct obj as [[[k|] t]|]; simpl;
    [apply stays_register | apply stays_raise | apply stays_raise].
Qed.

Lemma stays_setattr_text obj v : stays (setattr_text obj v).
Proof.
  destruct obj as [[[k|] t]|]; simpl;
    [apply stays_register | apply stays_ret | apply stays_raise].
Qed.

Lemma stays_get_things : stays get_things.
Proof.
  apply stays_bind; [apply stays_session_execute_select|].
  intros things. apply stays_lift.
Qed.

Lemma stays_get_thing ident : stays (get_thing ident).
Proof.
  apply stays_bind; [apply stays_session_get|].
  intros [thing|]; [|apply stays_ret].
  apply stays_bind; [apply stays_lift|]. intros m. apply stays_ret.
Qed.

Lemma stays_in_session {A} (handler : M A) db :
  stays handler -> snd (get_async_session handler db) = db.
Proof.
  intros Hh. unfold get_async_session. specialize (Hh (mkSession db [])).
  now destruct (handler (mkSession db [])).
Qed.

(** ** Computations that end in a commit *)

Lemma stays_atomic {A} (c : M A) : stays c -> atomic c.
Proof.
  intros Hc s e s' Hrun. specialize (Hc s). now rewrite Hrun in Hc.
Qed.

Lemma atomic_bind {A B} (c : M A) (k : A -> M B) :
  stays c -> (forall a, atomic (k a)) -> atomic (bind c k).
Proof.
  intros Hc Hk s e s' Hrun. unfold bind in Hrun. specialize (Hc s).
  destruct (c s) as [[a|e1] s1]; simpl in Hc.
  - rewrite <- Hc. exact (Hk a s1 e s' Hrun).
  - injection Hrun as _ <-. exact Hc.
Qed.

Lemma atomic_session_commit : atomic session_commit.
Proof.
  intros s e s'. unfold session_commit.
  destruct (database s) as [tbl|] eqn:Hdb.
  - destruct (flush (pending s) tbl); [discriminate|].
    now intros [= _ <-].
  - destruct (pending s); [discriminate|]. now intros [= _ <-].
Qed.

Lemma atomic_post_thing body : atomic (post_thing body).
Proof.
  apply atomic_bind; [apply stays_register|].
  intros _. apply atomic_session_commit.
Qed.

Lemma atomic_delete_thing ident : atomic (delete_thing ident).
Proof.
  apply atomic_bind; [apply stays_session_get|]. intros thing.
  apply atomic_bind; [apply stays_session_delete|].
  intros _. apply atomic_session_commit.
Qed.

Lemma atomic_put_thing ident body : atomic (put_thing ident body).
Proof.
  apply atomic_bind; [apply stays_session_get|]. intros thing.
  apply atomic_bind; [apply stays_setattr_text|].
  intros _. apply atomic_session_commit.
Qed.

Lemma atomic_in_session {A} (handler : M A) db e :
  atomic handler ->
  status (get_async_session handler db) = Some e ->
  snd (get_async_session handler db) = db.
Proof.
  intros Hh. unfold status, get_async_session.
  specialize (Hh (mkSession db [])).
  destruct (handler (mkSession db [])) as [[a|e1] s1]; simpl; [discriminate|].
  intros _. exact (Hh e1 s1 eq_refl).
Qed.

Lemma stays_flushes {A} (c : M A) : stays c -> flushes c.
Proof. intros Hc s. left. apply Hc. Qed.

Lemma flushes_bind {A B} (c : M A) (k : A -> M B) :
  stays c -> (forall a, flushes (k a)) -> flushes (bind c k).
Proof.
  intros Hc Hk s. unfold bind. specialize (Hc s).
  destruct (c s) as [[a|e] s1]; simpl in *.
  - rewrite <- Hc. apply Hk.
  - left. exact Hc.
Qed.

Lemma flushes_session_commit : flushes session_commit.
Proof.
  intros s. unfold session_commit.
  destruct (database s) as [tbl|] eqn:Hdb.
  - destruct (flush (pending s) tbl) as [tbl'|e] eqn:Hf; simpl.
    + right. exists tbl, (pending s), tbl'. auto.
    + left. reflexivity.
  - left. destruct (pending s); simpl; [exact Hdb | reflexivity].
Qed.

Lemma flushes_post_thing body : flushes (post_thing body).
Proof.
  apply flushes_bind; [apply stays_register|].
  intros _. apply flushes_session_commit.
Qed.

Lemma flushes_delete_thing ident : flushes (delete_thing ident).
Proof.
  apply flushes_bind; [apply stays_session_get|]. intros thing.
  apply flushes_bind; [apply stays_session_delete|].
  intros _. apply flushes_session_commit.
Qed.

Lemma flushes_put_thing ident body : flushes (put_thing ident body).
Proof.
  apply flushes_bind; [apply stays_session_get|]. intros thing.
  apply flushes_bind; [apply stays_setattr_text|].
  intros _. apply flushes_session_commit.
Qed.

Lemma flushes_in_session {A} (handler : M A) db :
  flushes handler ->
  snd (get_async_session handler db) = db \/
  exists tbl ps tbl',
    db = Some tbl /\ flush ps tbl = Returned tbl' /\
    snd (get_async_session handler db) = Some tbl'.
Proof.
  intros Hh. unfold get_async_session. specialize (Hh (mkSession db [])).
  destruct (handler (mkSession db [])) as [r s1]. exact Hh.
Qed.

Lemma serve_flushes req db :
  serve req db = db \/
  exists tbl ps tbl',
    db = Some tbl /\ flush ps tbl = Returned tbl' /\ serve req db = Some tbl'.
Proof.
  destruct req; simpl; apply flushes_in_session;
    auto using stays_flushes, stays_get_things, stays_get_thing,
               flushes_post_thing, flushes_delete_thing, flushes_put_thing.
Qed.

(** ** More facts about the table *)

Lemma rowids_insert_row_In k r tbl :
  In k (rowids (insert_row r tbl)) <-> k = rowid r \/ In k (rowids tbl).
Proof.
  induction tbl as [|x rest IH]; simpl.
  - intuition.
  - destruct (rowid r <? rowid x); simpl.
    + intuition.
    + rewrite IH. intuition.
Qed.

Lemma NoDup_insert_row r tbl :
  NoDup (rowids tbl) -> ~ In (rowid r) (rowids tbl) ->
  NoDup (rowids (insert_row r tbl)).
Proof.
  induction tbl as [|x rest IH]; simpl; intros Hnd Hfresh.
  - constructor; [intros [] | constructor].
  - destruct (rowid r <? rowid x); simpl.
    + constructor; assumption.
    + inversion Hnd as [|? ? Hx Hrest]; subst. constructor.
      * fold (rowids (insert_row r rest)). rewrite rowids_insert_row_In.
        intros [Heq|Hin]; [apply Hfresh; now left | now apply Hx].
      * apply IH; [assumption|]. intros Hin. apply Hfresh. now right.
Qed.

Lemma NoDup_delete_row k tbl :
  NoDup (rowids tbl) -> NoDup (rowids (delete_row k tbl)).
Proof.
  induction tbl as [|x rest IH]; simpl; intros Hnd; [constructor|].
  inversion Hnd as [|? ? Hx Hrest]; subst.
  destruct (negb (rowid x =? k)); simpl; [|now apply IH].
  constructor; [|now apply IH].
  intros Hin. apply Hx. unfold rowids, delete_row in Hin.
  apply in_map_iff in Hin. destruct Hin as [y [Hy Hin]].
  apply filter_In in Hin. apply in_map_iff. exists y. tauto.
Qed.

Lemma flush_one_unique p tbl tbl' :
  NoDup (rowids tbl) -> flush_one p tbl = Returned tbl' ->
  NoDup (rowids tbl').
Proof.
  intros Hnd. destruct p as [[i t]|k v|k]; simpl.
  - destruct i as [k|].
    + destruct t as [v|]; [|discriminate].
      destruct (has_rowid k tbl) eqn:Hk; [discriminate|].
      intros [= <-]. apply NoDup_insert_row; [assumption|].
      now apply has_rowid_false.
    + destruct (new_rowid tbl) as [k|] eqn:Hnew; [|discriminate].
      destruct t as [v|]; [|discriminate].
      intros [= <-]. apply NoDup_insert_row; [assumption|].
      now apply new_rowid_fresh.
  - destruct v as [v|]; [|discriminate].
    destruct (has_rowid k tbl); [|discriminate].
    intros [= <-]. now rewrite rowids_update_text.
  - intros [= <-]. now apply NoDup_delete_row.
Qed.

Lemma flush_unique ps tbl tbl' :
  NoDup (rowids tbl) -> flush ps tbl = Returned tbl' -> NoDup (rowids tbl').
Proof.
  revert tbl. induction ps as [|p rest IH]; simpl; intros tbl Hnd.
  - now intros [= <-].
  - destruct (flush_one p tbl) as [mid|e] eqn:Hone; [|discriminate].
    apply IH. exact (flush_one_unique p tbl mid Hnd Hone).
Qed.

Lemma serve_unique_keys req db : unique_keys db -> unique_keys (serve req db).
Proof.
  intros Hdb.
  destruct (serve_flushes req db) as [->|[tbl [ps [tbl' [-> [Hf ->]]]]]].
  - exact Hdb.
  - exact (flush_unique ps tbl tbl' Hdb Hf).
Qed.

Lemma select_by_rowid_unique r tbl :
  NoDup (rowids tbl) -> In r tbl -> select_by_rowid (rowid r) tbl = Some r.
Proof.
  induction tbl as [|x rest IH]; simpl; intros Hnd Hin; [contradiction|].
  inversion Hnd as [|? ? Hx Hrest]; subst.
  destruct Hin as [->|Hin].
  - now rewrite Z.eqb_refl.
  - destruct (Z.eqb_spec (rowid x) (rowid r)) as [Heq|Hne].
    + exfalso. apply Hx. rewrite Heq. apply in_map_iff. now exists r.
    + now apply IH.
Qed.

Lemma insert_row_last r tbl :
  (forall k, In k (rowids tbl) -> k < rowid r) ->
  insert_row r tbl = tbl ++ [r].
Proof.
  induction tbl as [|x rest IH]; simpl; intros Hlt; [reflexivity|].
  destruct (Z.ltb_spec (rowid r) (rowid x)) as [Hlt'|_].
  - specialize (Hlt (rowid x) (or_introl eq_refl)). lia.
  - f_equal. apply IH. intros k Hk. apply Hlt. now right.
Qed.

Lemma rowids_below_top tbl k : In k (rowids tbl) -> k <= top_rowid tbl.
Proof.
  intros Hin. unfold top_rowid.
  destruct (largest_rowid tbl) as [v|] eqn:Hv.
  - exact (largest_rowid_bound tbl v Hv k Hin).
  - destruct tbl; [contradiction|]. simpl in Hv.
    destruct (largest_rowid tbl); discriminate.
Qed.

Lemma insert_row_next tbl v :
  insert_row (mkRow (top_rowid tbl + 1) v) tbl
  = tbl ++ [mkRow (top_rowid tbl + 1) v].
Proof.
  apply insert_row_last. simpl. intros k Hk.
  pose proof (rowids_below_top tbl k Hk). lia.
Qed.

Lemma delete_row_fresh k tbl : ~ In k (rowids tbl) -> delete_row k tbl = tbl.
Proof.
  induction tbl as [|x rest IH]; simpl; intros Hfresh; [reflexivity|].
  destruct (Z.eqb_spec (rowid x) k) as [Heq|Hne]; simpl.
  - exfalso. apply Hfresh. now left.
  - f_equal. apply IH. intros Hin. apply Hfresh. now right.
Qed.

Lemma delete_insert_row r tbl :
  ~ In (rowid r) (rowids tbl) ->
  delete_row (rowid r) (insert_row r tbl) = tbl.
Proof.
  induction tbl as [|x rest IH]; simpl; intros Hfresh.
  - now rewrite Z.eqb_refl.
  - destruct (rowid r <? rowid x); simpl.
    + rewrite Z.eqb_refl. simpl.
      destruct (Z.eqb_spec (rowid x) (rowid r)) as [Heq|Hne]; simpl.
      * exfalso. apply Hfresh. now left.
      * f_equal. apply delete_row_fresh. intros Hin. apply Hfresh. now right.
    + destruct (Z.eqb_spec (rowid x) (rowid r)) as [Heq|Hne]; simpl.
      * exfalso. apply Hfresh. now left.
      * f_equal. apply IH. intros Hin. apply Hfresh. now right.
Qed.

Lemma update_text_twice k v w tbl :
  update_text k w (update_text k v tbl) = update_text k w tbl.
Proof.
  unfold update_text. rewrite map_map. apply map_ext. intros r.
  destruct (Z.eqb_spec (rowid r) k) as [Heq|Hne]; simpl.
  - now rewrite Heq, Z.eqb_refl.
  - now destruct (Z.eqb_spec (rowid r) k).
Qed.

Lemma delete_row_In k r tbl :
  In r (delete_row k tbl) <-> In r tbl /\ rowid r <> k.
Proof.
  unfold delete_row. rewrite filter_In.
  destruct (Z.eqb_spec (rowid r) k); simpl; intuition congruence.
Qed.

Lemma delete_row_length k tbl :
  NoDup (rowids tbl) -> In k (rowids tbl) ->
  List.length tbl = S (List.length (delete_row k tbl)).
Proof.
  induction tbl as [|x rest IH]; simpl; intros Hnd Hin; [contradiction|].
  inversion Hnd as [|? ? Hx Hrest]; subst.
  destruct (Z.eqb_spec (rowid x) k) as [Heq|Hne]; simpl.
  - f_equal. rewrite delete_row_fresh; [reflexivity|]. now rewrite <- Heq.
  - f_equal. destruct Hin as [Heq|Hin]; [contradiction|]. now apply IH.
Qed.

Lemma comprehension_stored l :
  comprehension
    (fun thing => ThingModel.new (Thing.id thing) (Thing.text thing))
    (map load (stored l)) = Returned (listed l).
Proof.
  induction l as [|p rest IH]; simpl; [reflexivity|]. now rewrite IH.
Qed.

Lemma comprehension_member tbl out r v :
  comprehension
    (fun thing => ThingModel.new (Thing.id thing) (Thing.text thing))
    (map load tbl) = Returned out ->
  In r tbl -> text_col r = Some v ->
  In (ThingModel.mk (Some (rowid r)) v) out.
Proof.
  revert out. induction tbl as [|x rest IH]; simpl; intros out Hout Hin Hv;
    [contradiction|].
  destruct (text_col x) as [w|] eqn:Hw; simpl in Hout; [|discriminate].
  destruct (comprehension _ (map load rest)) as [ys|e]; [|discriminate].
  injection Hout as <-. destruct Hin as [->|Hin].
  - left. congruence.
  - right. now apply IH.
Qed.

Lemma get_things_stored l :
  get_async_session get_things (Some (stored l))
  = (Returned (listed l), Some (stored l)).
Proof.
  unfold get_async_session, get_things, bind, session_execute_select, lift.
  simpl. now rewrite comprehension_stored.
Qed.

Lemma post_all_numbered bodies tbl :
  top_rowid tbl + Z.of_nat (List.length bodies) <= MAX_ROWID ->
  post_all bodies (Some tbl)
  = (Returned tt,
     Some (tbl ++ stored (numbered (top_rowid tbl + 1)
                            (map ThingModel.text bodies)))).
Proof.
  revert tbl. induction bodies as [|body rest IH]; intros tbl Hroom.
  - simpl. now rewrite app_nil_r.
  - cbn [post_all]. rewrite post_in_session.
    cbn [List.length] in Hroom. rewrite Nat2Z.inj_succ in Hroom.
    rewrite new_rowid_next by lia.
    pose proof (top_rowid_after_insert tbl (Some (ThingModel.text body))) as Htop.
    rewrite insert_row_next in *. rewrite IH by (rewrite Htop; lia).
    rewrite Htop. simpl. now rewrite <- app_assoc.
Qed.

(** ** Further properties of the handlers *)

(** X1.  The two GET handlers never write: whatever the database holds,
    also when the table is missing, and whatever they answer, the database
    after the request is the database before it. *)
Theorem X1_reads_never_write :
  forall (db : Database) (path : string),
    serve GET_things db = db /\ serve (GET_thing path) db = db.
Proof.
  intros db path. split; simpl; apply stays_in_session.
  - apply stays_get_things.
  - apply stays_get_thing.
Qed.

(** X2.  GET /things answers one record per stored row, in the order of
    the table, each with the id and the text of its row. *)
Theorem X2_list_is_the_table :
  forall l : list (Z * string),
    get_async_session get_things (Some (stored l))
    = (Returned (listed l), Some (stored l)).
Proof.
  intros l. apply get_things_stored.
Qed.

(** X3.  In a table without duplicate keys, GET of a path that denotes
    the key of a stored row answers that row: its id and its stored
    text. *)
Theorem X3_get_answers_the_stored_row :
  forall (tbl : Table) (path : string) (k : Z) (v : string),
    NoDup (rowids tbl) ->
    In (mkRow k (Some v)) tbl ->
    numeric_affinity path = Some k ->
    get_async_session (get_thing path) (Some tbl)
    = (Returned (Some (ThingModel.mk (Some k) v)), Some tbl).
Proof.
  intros tbl path k v Hnd Hin Hk. apply in_session.
  rewrite (get_thing_run path k tbl Hk).
  pose proof (select_by_rowid_unique (mkRow k (Some v)) tbl Hnd Hin) as Hsel.
  simpl in Hsel. now rewrite Hsel.
Qed.

(** X4.  The primary key stays unique: every request leaves a table
    without duplicate keys when it found one, and so the table has no
    duplicate keys after any sequence of requests that follows a
    startup. *)
Theorem X4_keys_stay_unique :
  (forall (req : Request) (db : Database),
     unique_keys db -> unique_keys (serve req db)) /\
  (forall (db0 : Database) (reqs : list Request),
     unique_keys (serve_all reqs (on_startup db0))).
Proof.
  split.
  - intros req db. apply serve_unique_keys.
  - intros db0 reqs.
    assert (Hstart : unique_keys (on_startup db0))
      by (destruct db0; simpl; constructor).
    revert Hstart. generalize (on_startup db0). unfold serve_all.
    induction reqs as [|req rest IH]; simpl; intros db Hdb; [exact Hdb|].
    apply IH. now apply serve_unique_keys.
Qed.

(** X5.  DELETE of a path that denotes a stored key removes the rows of
    that key and nothing else: the rows left are exactly the rows of the
    other keys, and with unique keys the table is one row shorter. *)
Theorem X5_delete_frame :
  forall (tbl : Table) (path : string) (k : Z),
    numeric_affinity path = Some k ->
    In k (rowids tbl) ->
    exists tbl',
      get_async_session (delete_thing path) (Some tbl)
        = (Returned tt, Some tbl') /\
      (forall r, In r tbl' <-> In r tbl /\ rowid r <> k) /\
      (NoDup (rowids tbl) -> List.length tbl = S (List.length tbl')).
Proof.
  intros tbl path k Hk Hin. exists (delete_row k tbl). split; [|split].
  - apply in_session. now apply delete_thing_present.
  - intros r. apply delete_row_In.
  - intros Hnd. now apply delete_row_length.
Qed.

(** X6.  After a startup, N POSTs (N at most the largest rowid) all
    succeed and are given the ids 1, 2, ..., N in the order they arrive;
    GET /things then answers exactly these ids with the posted texts. *)
Theorem X6_posts_are_numbered_from_one :
  forall (db0 : Database) (bodies : list ThingModel.t),
    Z.of_nat (List.length bodies) <= MAX_ROWID ->
    post_all bodies (on_startup db0)
    = (Returned tt,
       Some (stored (numbered 1 (map ThingModel.text bodies)))) /\
    get_async_session get_things
      (Some (stored (numbered 1 (map ThingModel.text bodies))))
    = (Returned (listed (numbered 1 (map ThingModel.text bodies))),
       Some (stored (numbered 1 (map ThingModel.text bodies)))).
Proof.
  intros db0 bodies Hroom. split.
  - replace (on_startup db0) with (Some ([] : Table))
      by (now destruct db0).
    now rewrite post_all_numbered.
  - apply get_things_stored.
Qed.

(** X7.  A POST followed by a DELETE of the id the store assigned puts the
    table back exactly as it was before the POST. *)
Theorem X7_post_then_delete_restores :
  forall (tbl : Table) (body : ThingModel.t) (k : Z) (path : string),
    new_rowid tbl = Some k ->
    numeric_affinity path = Some k ->
    exists tbl1,
      get_async_session (post_thing body) (Some tbl)
        = (Returned tt, Some tbl1) /\
      get_async_session (delete_thing path) (Some tbl1)
        = (Returned tt, Some tbl).
Proof.
  intros tbl body k path Hnew Hpath.
  exists (insert_row (mkRow k (Some (ThingModel.text body))) tbl). split.
  - rewrite post_in_session. now rewrite Hnew.
  - apply in_session.
    rewrite (delete_thing_present path k _ Hpath)
      by (apply rowids_insert_row_In; now left).
    pose proof (delete_insert_row (mkRow k (Some (ThingModel.text body))) tbl
                  (new_rowid_fresh tbl k Hnew)) as Hdel.
    simpl in Hdel. now rewrite Hdel.
Qed.

(** X8.  Ids are reused: while the largest rowid is below the last one,
    the id given to a POST is given again to the next POST once the row
    has been deleted, and a GET of that id then answers the second
    text. *)
Theorem X8_deleted_id_is_reused :
  forall (tbl : Table) (first second : ThingModel.t) (path : string),
    top_rowid tbl < MAX_ROWID ->
    numeric_affinity path = Some (top_rowid tbl + 1) ->
    exists tbl1 tbl3,
      get_async_session (post_thing first) (Some tbl)
        = (Returned tt, Some tbl1) /\
      get_async_session (get_thing path) (Some tbl1)
        = (Returned (Some (ThingModel.mk (Some (top_rowid tbl + 1))
                             (ThingModel.text first))), Some tbl1) /\
      get_async_session (delete_thing path) (Some tbl1)
        = (Returned tt, Some tbl) /\
      get_async_session (post_thing second) (Some tbl)
        = (Returned tt, Some tbl3) /\
      get_async_session (get_thing path) (Some tbl3)
        = (Returned (Some (ThingModel.mk (Some (top_rowid tbl + 1))
                             (ThingModel.text second))), Some tbl3).
Proof.
  intros tbl first second path Hlt Hpath.
  pose proof (new_rowid_next tbl Hlt) as Hnew.
  pose proof (new_rowid_fresh tbl _ Hnew) as Hfresh.
  assert (Hget : forall v,
    get_thing path (opened (insert_row (mkRow (top_rowid tbl + 1) (Some v)) tbl))
    = (Returned (Some (ThingModel.mk (Some (top_rowid tbl + 1)) v)),
       opened (insert_row (mkRow (top_rowid tbl + 1) (Some v)) tbl))).
  { intros v. rewrite (get_thing_run path _ _ Hpath).
    pose proof (select_insert_row (mkRow (top_rowid tbl + 1) (Some v)) tbl Hfresh)
      as Hsel.
    simpl in Hsel. now rewrite Hsel. }
  exists (insert_row (mkRow (top_rowid tbl + 1) (Some (ThingModel.text first))) tbl).
  exists (insert_row (mkRow (top_rowid tbl + 1) (Some (ThingModel.text second))) tbl).
  split; [|split; [|split; [|split]]].
  - rewrite post_in_session. now rewrite Hnew.
  - apply in_session. apply Hget.
  - apply in_session.
    rewrite (delete_thing_present path _ _ Hpath)
      by (apply rowids_insert_row_In; now left).
    pose proof (delete_insert_row
                  (mkRow (top_rowid tbl + 1) (Some (ThingModel.text first)))
                  tbl Hfresh) as Hdel.
    simpl in Hdel. now rewrite Hdel.
  - rewrite post_in_session. now rewrite Hnew.
  - apply in_session. apply Hget.
Qed.

(** X9.  The last PUT wins: two PUTs on the same stored id leave the
    table that the second PUT alone leaves. *)
Theorem X9_last_put_wins :
  forall (tbl : Table) (path : string) (first second : ThingModel.t),
    present path tbl ->
    exists tbl1,
      get_async_session (put_thing path first) (Some tbl)
        = (Returned tt, Some tbl1) /\
      get_async_session (put_thing path second) (Some tbl1)
      = get_async_session (put_thing path second) (Some tbl).
Proof.
  intros tbl path first second Hpres.
  destruct (present_rowids path tbl Hpres) as [k [Hk Hin]].
  exists (update_text k (Some (ThingModel.text first)) tbl). split.
  - apply in_session. now apply put_thing_present.
  - unfold get_async_session. fold (opened tbl).
    fold (opened (update_text k (Some (ThingModel.text first)) tbl)).
    rewrite (put_thing_present path k second tbl Hk Hin).
    rewrite (put_thing_present path k second _ Hk)
      by (now rewrite rowids_update_text).
    now rewrite update_text_twice.
Qed.

(** X10.  Once an id has been deleted it is gone for the requests that
    follow: a second DELETE of it raises on the deletion of [None] and a
    PUT on it raises on the assignment to [None], and both leave the table
    as the first DELETE left it. *)
Theorem X10_delete_is_not_repeatable :
  forall (tbl : Table) (path : string) (body : ThingModel.t),
    present path tbl ->
    exists tbl',
      get_async_session (delete_thing path) (Some tbl)
        = (Returned tt, Some tbl') /\
      get_async_session (delete_thing path) (Some tbl')
        = (Raised UnmappedInstanceError, Some tbl') /\
      get_async_session (put_thing path body) (Some tbl')
        = (Raised AttributeError, Some tbl').
Proof.
  intros tbl path body Hpres.
  destruct (present_rowids path tbl Hpres) as [k [Hk Hin]].
  exists (delete_row k tbl).
  assert (Hget : session_get path (opened (delete_row k tbl))
                 = (Returned None, opened (delete_row k tbl))).
  { unfold session_get, opened; simpl. rewrite Hk.
    now rewrite (select_by_rowid_none k _ (rowids_delete_row k tbl)). }
  split; [|split]; apply in_session.
  - now apply delete_thing_present.
  - unfold delete_thing, bind. now rewrite Hget.
  - unfold put_thing, bind. now rewrite Hget.
Qed.

(** X11.  A request that is answered with an exception has stored
    nothing: the database after it is the database before it. *)
Theorem X11_failed_request_stores_nothing :
  forall (req : Request) (db : Database) (e : exn),
    raises req db = Some e -> serve req db = db.
Proof.
  intros req db e. destruct req; simpl; intros Hraised.
  - apply stays_in_session, stays_get_things.
  - apply stays_in_session, stays_get_thing.
  - exact (atomic_in_session _ db e (atomic_post_thing body) Hraised).
  - exact (atomic_in_session _ db e (atomic_delete_thing id) Hraised).
  - exact (atomic_in_session _ db e (atomic_put_thing id body) Hraised).
Qed.

(** X12.  Without the table, which only the startup hook creates, every
    one of the five requests is answered with the store's operational
    error and the table is not created on the way. *)
Theorem X12_no_table_no_service :
  forall req : Request,
    raises req None = Some OperationalError /\ serve req None = None.
Proof.
  intros req. destruct req; split; reflexivity.
Qed.

(** X13.  On a table without null texts GET /things/{id} never raises and
    agrees with GET /things: it answers nothing only when the path selects
    no row, and a record it answers carries the key the path denotes and
    is one of the records of the list. *)
Theorem X13_get_agrees_with_list :
  forall tbl : Table,
    text_not_null tbl ->
    exists out,
      get_async_session get_things (Some tbl) = (Returned out, Some tbl) /\
      forall path : string,
        (get_async_session (get_thing path) (Some tbl)
           = (Returned None, Some tbl) /\ absent path tbl)
        \/
        (exists m,
           get_async_session (get_thing path) (Some tbl)
             = (Returned (Some m), Some tbl) /\
           ThingModel.id m = numeric_affinity path /\
           In m out).
Proof.
  intros tbl Hinv.
  destruct (comprehension_loaded tbl Hinv) as [out [Hout _]].
  exists out. split.
  { unfold get_async_session, get_things, bind, session_execute_select, lift.
    simpl. now rewrite Hout. }
  intros path. destruct (numeric_affinity path) as [k|] eqn:Hk.
  - destruct (select_by_rowid k tbl) as [r|] eqn:Hsel.
    + right. apply find_some in Hsel as Hfound. destruct Hfound as [Hin Heq].
      apply Z.eqb_eq in Heq.
      destruct (text_col r) as [v|] eqn:Hv; [|now destruct (Hinv r Hin)].
      exists (ThingModel.mk (Some (rowid r)) v). split; [|split].
      * apply in_session. rewrite (get_thing_run path k tbl Hk).
        now rewrite Hsel, Hv.
      * simpl. now rewrite Heq.
      * exact (comprehension_member tbl out r v Hout Hin Hv).
    + left. split.
      * apply in_session. rewrite (get_thing_run path k tbl Hk).
        now rewrite Hsel.
      * intros r Hin Hm. unfold matches in Hm. rewrite Hk in Hm.
        injection Hm as ->.
        pose proof (find_none _ _ Hsel r Hin) as Hne. simpl in Hne.
        rewrite Z.eqb_refl in Hne. discriminate.
  - left. split.
    + apply in_session. unfold get_thing, bind, session_get, opened; simpl.
      now rewrite Hk.
    + intros r _ Hm. unfold matches in Hm. congruence.
Qed.

End Store.

(** ** A concrete store *)

Lemma decimal_affinity_decimal (z : Z) : decimal_affinity (decimal z) = Some z.
Proof.
  unfold decimal_affinity, decimal. rewrite NilZero.isi.
  - simpl. now rewrite DecimalZ.of_to.
  - destruct z as [|p|p]; simpl; try discriminate.
    intros [= Hp]. exact (DecimalPos.Unsigned.to_uint_nonnil p Hp).
  - destruct z as [|p|p]; simpl; try discriminate.
    intros [= Hp]. exact (DecimalPos.Unsigned.to_uint_nonnil p Hp).
Qed.

(** ** The handlers on a small table *)

Example get_things_sample :
  get_async_session get_things (Some sample)
  = (Returned [ThingModel.mk (Some 1) "a"; ThingModel.mk (Some 2) "b"],
     Some sample).
Proof. reflexivity. Qed.

Example post_sample :
  get_async_session (post_thing free_rowid abc) (Some sample)
  = (Returned tt, Some (sample ++ [mkRow 3 (Some "abc")])).
Proof. reflexivity. Qed.

Example post_full_draws :
  get_async_session (post_thing free_rowid abc) (Some full)
  = (Returned tt,
     Some [mkRow 1 (Some "abc"); mkRow 4 (Some "d"); mkRow MAX_ROWID (Some "z")]).
Proof. reflexivity. Qed.

Example post_full_random :
  get_async_session (post_thing (fun _ => Some 9) abc) (Some full)
  = (Returned tt,
     Some [mkRow 4 (Some "d"); mkRow 9 (Some "abc"); mkRow MAX_ROWID (Some "z")]).
Proof. reflexivity. Qed.

Example put_sample :
  get_async_session (put_thing decimal_affinity free_rowid "2" xyz)
    (Some sample)
  = (Returned tt, Some [mkRow 1 (Some "a"); mkRow 2 (Some "xyz")]).
Proof. reflexivity. Qed.

Example delete_sample :
  get_async_session (delete_thing decimal_affinity free_rowid "1")
    (Some sample)
  = (Returned tt, Some [mkRow 2 (Some "b")]).
Proof. reflexivity. Qed.

Example get_before_startup :
  get_async_session (get_thing decimal_affinity "1") None
  = (Raised OperationalError, None).
Proof. reflexivity. Qed.

Lemma sample_absent (ident : string) :
  decimal_affinity ident <> Some 1 -> decimal_affinity ident <> Some 2 ->
  absent decimal_affinity ident sample.
Proof.
  intros H1 H2 r [<-|[<-|[]]]; unfold matches; simpl; assumption.
Qed.

Lemma sample_present_2 : present decimal_affinity "2" sample.
Proof.
  exists (mkRow 2 (Some "b")). split; [right; left|]; reflexivity.
Qed.

Lemma C1_witness :
  get_async_session (put_thing decimal_affinity free_rowid "7" xyz)
    (Some sample) = (Raised AttributeError, Some sample) /\
  get_async_session (delete_thing decimal_affinity free_rowid "abc")
    (Some sample) = (Raised UnmappedInstanceError, Some sample).
Proof.
  split.
  - apply (C1_put_delete_absent_id decimal_affinity free_rowid
             sample "7" xyz).
    apply sample_absent; discriminate.
  - apply (C1_put_delete_absent_id decimal_affinity free_rowid
             sample "abc" xyz).
    apply sample_absent; discriminate.
Defined.

Lemma C2_witness :
  exists tbl',
    get_async_session (post_thing free_rowid abc) (Some sample)
      = (Returned tt, Some tbl') /\
    get_async_session (get_thing decimal_affinity (decimal 3)) (Some tbl')
      = (Returned (Some (ThingModel.mk (Some 3) "abc")), Some tbl').
Proof.
  apply (C2_post_then_get decimal_affinity free_rowid sample abc 3
           (decimal 3)).
  - reflexivity.
  - reflexivity.
Defined.

Lemma C3_witness :
  exists out,
    get_async_session get_things
      (Some [mkRow 1 (Some "abc"); mkRow 2 (Some "xyz"); mkRow 3 (Some "abc")])
    = (Returned out,
       Some [mkRow 1 (Some "abc"); mkRow 2 (Some "xyz"); mkRow 3 (Some "abc")])
    /\ List.length out = 3%nat.
Proof.
  apply (proj2 (C3_list_counts_posts free_rowid [abc; xyz; abc])).
  reflexivity.
Defined.

Lemma C4_witness :
  exists tbl' m,
    get_async_session (put_thing decimal_affinity free_rowid "2" xyz)
      (Some sample) = (Returned tt, Some tbl') /\
    get_async_session (get_thing decimal_affinity "2") (Some tbl')
      = (Returned (Some m), Some tbl') /\
    ThingModel.text m = "xyz".
Proof.
  apply (C4_put_then_get decimal_affinity free_rowid sample "2" xyz).
  exact sample_present_2.
Defined.

Lemma C5_witness :
  exists tbl',
    get_async_session (delete_thing decimal_affinity free_rowid "2")
      (Some sample) = (Returned tt, Some tbl') /\
    get_async_session (get_thing decimal_affinity "2") (Some tbl')
      = (Returned None, Some tbl').
Proof.
  apply (C5_delete_then_get decimal_affinity free_rowid sample "2").
  exact sample_present_2.
Defined.

Lemma C6_witness :
  get_async_session (get_thing decimal_affinity "7") (Some sample)
    = (Returned None, Some sample) /\
  get_async_session (get_thing decimal_affinity "abc") (Some sample)
    = (Returned None, Some sample).
Proof.
  split.
  - apply (proj2 (C6_get_absent_id decimal_affinity sample "7")).
    apply sample_absent; discriminate.
  - apply (proj2 (C6_get_absent_id decimal_affinity sample "abc")).
    apply (proj1 (C6_get_absent_id decimal_affinity sample "abc")).
    reflexivity.
Defined.

Lemma C8_witness :
  db_text_not_null
    (serve decimal_affinity free_rowid (PUT_thing "2" xyz) (Some sample)).
Proof.
  apply (proj1 (C8_text_never_null decimal_affinity free_rowid)).
  intros r [<-|[<-|[]]]; discriminate.
Defined.

Lemma C9_witness :
  (~ In 3 (rowids sample) /\
   get_async_session (post_thing free_rowid abc) (Some sample)
   = (Returned tt,
      Some [mkRow 1 (Some "a"); mkRow 2 (Some "b"); mkRow 3 (Some "abc")])) /\
  get_async_session (post_thing free_rowid abc) (Some full)
  = (Returned tt,
     Some [mkRow 1 (Some "abc"); mkRow 4 (Some "d"); mkRow MAX_ROWID (Some "z")]).
Proof.
  split.
  - apply (proj1 (proj2 (proj2 (C9_post_assigns_fresh_id free_rowid sample abc)))).
    reflexivity.
  - apply (proj1 (proj2 (proj2 (proj2
             (C9_post_assigns_fresh_id free_rowid full abc)))) 1).
    + vm_compute. discriminate.
    + reflexivity.
    + simpl. intros [H|[H|[]]]; discriminate.
Defined.

Lemma C10_witness :
  exists tbl',
    get_async_session (put_thing decimal_affinity free_rowid "2" xyz)
      (Some sample) = (Returned tt, Some tbl') /\
    rowids tbl' = rowids sample /\
    (forall n r, nth_error sample n = Some r -> rowid r <> 2 ->
                 nth_error tbl' n = Some r) /\
    (forall n r, nth_error sample n = Some r -> rowid r = 2 ->
                 nth_error tbl' n = Some (mkRow 2 (Some "xyz"))) /\
    (forall other : option Z,
       get_async_session
         (put_thing decimal_affinity free_rowid "2"
            (ThingModel.mk other "xyz"))
         (Some sample)
       = (Returned tt, Some tbl')).
Proof.
  apply (C10_put_frame decimal_affinity free_rowid sample "2" 2 xyz).
  - reflexivity.
  - simpl. right. left. reflexivity.
Defined.

Lemma X3_witness :
  get_async_session (get_thing decimal_affinity "2") (Some sample)
  = (Returned (Some (ThingModel.mk (Some 2) "b")), Some sample).
Proof.
  apply (X3_get_answers_the_stored_row decimal_affinity sample "2" 2 "b").
  - repeat constructor; simpl; intuition discriminate.
  - right. left. reflexivity.
  - reflexivity.
Defined.

Lemma X4_witness :
  unique_keys
    (serve decimal_affinity free_rowid (POST_things abc) (Some sample)).
Proof.
  apply (proj1 (X4_keys_stay_unique decimal_affinity free_rowid)).
  repeat constructor; simpl; intuition discriminate.
Defined.

Lemma X5_witness :
  exists tbl',
    get_async_session (delete_thing decimal_affinity free_rowid "1")
      (Some sample) = (Returned tt, Some tbl') /\
    (forall r, In r tbl' <-> In r sample /\ rowid r <> 1) /\
    (NoDup (rowids sample) -> List.length sample = S (List.length tbl')).
Proof.
  apply (X5_delete_frame decimal_affinity free_rowid sample "1" 1).
  - reflexivity.
  - left. reflexivity.
Defined.

Lemma X6_witness :
  post_all free_rowid [abc; xyz] (on_startup (Some sample))
  = (Returned tt, Some [mkRow 1 (Some "abc"); mkRow 2 (Some "xyz")]) /\
  get_async_session get_things
    (Some [mkRow 1 (Some "abc"); mkRow 2 (Some "xyz")])
  = (Returned [ThingModel.mk (Some 1) "abc"; ThingModel.mk (Some 2) "xyz"],
     Some [mkRow 1 (Some "abc"); mkRow 2 (Some "xyz")]).
Proof.
  apply (X6_posts_are_numbered_from_one free_rowid (Some sample)
           [abc; xyz]).
  vm_compute. discriminate.
Defined.

Lemma X7_witness :
  exists tbl1,
    get_async_session (post_thing free_rowid abc) (Some sample)
      = (Returned tt, Some tbl1) /\
    get_async_session (delete_thing decimal_affinity free_rowid "3")
      (Some tbl1) = (Returned tt, Some sample).
Proof.
  apply (X7_post_then_delete_restores decimal_affinity free_rowid
           sample abc 3 "3").
  - reflexivity.
  - reflexivity.
Defined.

Lemma X8_witness :
  exists tbl1 tbl3,
    get_async_session (post_thing free_rowid abc) (Some sample)
      = (Returned tt, Some tbl1) /\
    get_async_session (get_thing decimal_affinity "3") (Some tbl1)
      = (Returned (Some (ThingModel.mk (Some 3) "abc")), Some tbl1) /\
    get_async_session (delete_thing decimal_affinity free_rowid "3")
      (Some tbl1) = (Returned tt, Some sample) /\
    get_async_session (post_thing free_rowid xyz) (Some sample)
      = (Returned tt, Some tbl3) /\
    get_async_session (get_thing decimal_affinity "3") (Some tbl3)
      = (Returned (Some (ThingModel.mk (Some 3) "xyz")), Some tbl3).
Proof.
  apply (X8_deleted_id_is_reused decimal_affinity free_rowid
           sample abc xyz "3").
  - reflexivity.
  - reflexivity.
Defined.

Lemma X9_witness :
  exists tbl1,
    get_async_session (put_thing decimal_affinity free_rowid "2" abc)
      (Some sample) = (Returned tt, Some tbl1) /\
    get_async_session (put_thing decimal_affinity free_rowid "2" xyz)
      (Some tbl1)
    = get_async_session (put_thing decimal_affinity free_rowid "2" xyz)
        (Some sample).
Proof.
  apply (X9_last_put_wins decimal_affinity free_rowid sample "2" abc xyz).
  exact sample_present_2.
Defined.

Lemma X10_witness :
  exists tbl',
    get_async_session (delete_thing decimal_affinity free_rowid "2")
      (Some sample) = (Returned tt, Some tbl') /\
    get_async_session (delete_thing decimal_affinity free_rowid "2")
      (Some tbl') = (Raised UnmappedInstanceError, Some tbl') /\
    get_async_session (put_thing decimal_affinity free_rowid "2" xyz)
      (Some tbl') = (Raised AttributeError, Some tbl').
Proof.
  apply (X10_delete_is_not_repeatable decimal_affinity free_rowid
           sample "2" xyz).
  exact sample_present_2.
Defined.

Lemma X11_witness :
  serve decimal_affinity free_rowid (PUT_thing "7" xyz) (Some sample)
  = Some sample.
Proof.
  apply (X11_failed_request_stores_nothing decimal_affinity free_rowid
           (PUT_thing "7" xyz) (Some sample) AttributeError).
  reflexivity.
Defined.

Lemma X13_witness :
  exists out,
    get_async_session get_things (Some sample) = (Returned out, Some sample) /\
    forall path : string,
      (get_async_session (get_thing decimal_affinity path) (Some sample)
         = (Returned None, Some sample) /\
       absent decimal_affinity path sample)
      \/
      (exists m,
         get_async_session (get_thing decimal_affinity path) (Some sample)
           = (Returned (Some m), Some sample) /\
         ThingModel.id m = decimal_affinity path /\
         In m out).
Proof.
  apply (X13_get_agrees_with_list decimal_affinity sample).
  intros r [<-|[<-|[]]]; discriminate.
Defined.
